(** * The [Card] model of app/models/card.py

    A shallow embedding of the pydantic model [Card] and of its four
    methods, followed by the properties of the rating algorithm.

    Reading of the Python data:
    - [int] fields are unbounded integers: [Z];
    - [datetime] values are instants on a discrete time line: [Z];
    - every call of [datetime.utcnow()] is an explicit argument of the
      operation that makes it, in the order of the calls;
    - a method is a computation on the receiver [self]: it takes the card
      and returns its result together with the card it leaves behind;
    - [float] fields and [float] arithmetic have two readings.
      The exact reading, used by the definitions at top level, is over the
      real numbers [R]: [+], [-], [*], [/] are the exact operations and
      [10.0 ** x] is [Rpower 10 x]; it has no rounding, no overflow and no
      exception.  The laws of the rating algorithm are stated in it.
      The binary64 reading, in [Module Binary64], is over IEEE doubles as
      Python computes them: every operation rounds, [10.0 ** x] is
      CPython's [float_pow] around the C library's [pow], and a call can
      raise [OverflowError].  It shows where a law of the exact reading
      stops short of the code. *)

From Stdlib Require Import ZArith String List Bool Lia.
From Stdlib Require Import Reals Lra.
From Stdlib Require Import Floats.
Import ListNotations.

Open Scope Z_scope.

(** ** Data model *)

Definition datetime := Z.
Bind Scope Z_scope with datetime.

Record Card := mkCard {
  id : string;
  title : string;
  created_at : datetime;
  updated_at : datetime;
  likes_count : Z;
  dislikes_count : Z;
  total_interactions : Z;
  last_interaction_at : option datetime;
  elo_rating : R;
  elo_k_factor : R;
  confidence_score : R
}.

(** Attribute assignment [self.f = v], one function per assigned field. *)

Definition set_updated_at (v : datetime) (c : Card) : Card :=
  mkCard (id c) (title c) (created_at c) v
         (likes_count c) (dislikes_count c) (total_interactions c)
         (last_interaction_at c)
         (elo_rating c) (elo_k_factor c) (confidence_score c).

Definition set_likes_count (v : Z) (c : Card) : Card :=
  mkCard (id c) (title c) (created_at c) (updated_at c)
         v (dislikes_count c) (total_interactions c)
         (last_interaction_at c)
         (elo_rating c) (elo_k_factor c) (confidence_score c).

Definition set_dislikes_count (v : Z) (c : Card) : Card :=
  mkCard (id c) (title c) (created_at c) (updated_at c)
         (likes_count c) v (total_interactions c)
         (last_interaction_at c)
         (elo_rating c) (elo_k_factor c) (confidence_score c).

Definition set_total_interactions (v : Z) (c : Card) : Card :=
  mkCard (id c) (title c) (created_at c) (updated_at c)
         (likes_count c) (dislikes_count c) v
         (last_interaction_at c)
         (elo_rating c) (elo_k_factor c) (confidence_score c).

Definition set_last_interaction_at (v : option datetime) (c : Card) : Card :=
  mkCard (id c) (title c) (created_at c) (updated_at c)
         (likes_count c) (dislikes_count c) (total_interactions c)
         v
         (elo_rating c) (elo_k_factor c) (confidence_score c).

Definition set_elo_rating (v : R) (c : Card) : Card :=
  mkCard (id c) (title c) (created_at c) (updated_at c)
         (likes_count c) (dislikes_count c) (total_interactions c)
         (last_interaction_at c)
         v (elo_k_factor c) (confidence_score c).

Definition set_confidence_score (v : R) (c : Card) : Card :=
  mkCard (id c) (title c) (created_at c) (updated_at c)
         (likes_count c) (dislikes_count c) (total_interactions c)
         (last_interaction_at c)
         (elo_rating c) (elo_k_factor c) v.

(** ** Construction

    [Card(id=..., title=..., **kw)]: [id] and [title] are required
    ([Field(...)]); every other field has a default, or a default factory
    that reads the clock, and may be given by keyword instead. *)

Record Kwargs := mkKwargs {
  kw_created_at : option datetime;
  kw_updated_at : option datetime;
  kw_likes_count : option Z;
  kw_dislikes_count : option Z;
  kw_total_interactions : option Z;
  kw_last_interaction_at : option (option datetime);
  kw_elo_rating : option R;
  kw_elo_k_factor : option R;
  kw_confidence_score : option R
}.

Definition or_default {A : Type} (given : option A) (dflt : A) : A :=
  match given with
  | Some v => v
  | None => dflt
  end.

(** [now_created] and [now_updated] are the two readings of
    [datetime.utcnow] made by the default factories (used only for a field
    that is not given). *)
Definition Card_init (id0 title0 : string) (kw : Kwargs)
    (now_created now_updated : datetime) : Card :=
  {| id := id0;
     title := title0;
     created_at := or_default (kw_created_at kw) now_created;
     updated_at := or_default (kw_updated_at kw) now_updated;
     likes_count := or_default (kw_likes_count kw) 0;
     dislikes_count := or_default (kw_dislikes_count kw) 0;
     total_interactions := or_default (kw_total_interactions kw) 0;
     last_interaction_at := or_default (kw_last_interaction_at kw) None;
     elo_rating := or_default (kw_elo_rating kw) 1500%R;
     elo_k_factor := or_default (kw_elo_k_factor kw) 32%R;
     confidence_score := or_default (kw_confidence_score kw) 0%R |}.

(** Keyword arguments that give at most a rating and a K-factor. *)
Definition rating_kwargs (elo k : option R) : Kwargs :=
  {| kw_created_at := None;
     kw_updated_at := None;
     kw_likes_count := None;
     kw_dislikes_count := None;
     kw_total_interactions := None;
     kw_last_interaction_at := None;
     kw_elo_rating := elo;
     kw_elo_k_factor := k;
     kw_confidence_score := None |}.

Definition no_kwargs : Kwargs := rating_kwargs None None.

(** ** Methods as computations on [self] *)

Definition Method (A : Type) : Type := Card -> A * Card.

Definition ret {A : Type} (a : A) : Method A := fun self => (a, self).

Definition bind {A B : Type} (m : Method A) (k : A -> Method B) : Method B :=
  fun self => let (a, self') := m self in k a self'.

Definition get {A : Type} (field : Card -> A) : Method A :=
  fun self => (field self, self).

Definition assign {A : Type} (setter : A -> Card -> Card) (v : A) : Method unit :=
  fun self => (tt, setter v self).

Declare Scope method_scope.
Delimit Scope method_scope with method.

Notation "x <- m ;; k" := (bind m (fun x => k))
  (at level 61, m at next level, right associativity) : method_scope.
Notation "m ;; k" := (bind m (fun _ => k))
  (at level 61, right associativity) : method_scope.

(** The card a method leaves behind, and the value it returns. *)
Definition exec {A : Type} (m : Method A) (self : Card) : Card := snd (m self).
Definition eval {A : Type} (m : Method A) (self : Card) : A := fst (m self).

Open Scope method_scope.

(** [update_interaction_counts(self, is_like)].  [now1] and [now2] are the
    two readings of the clock, for [last_interaction_at] and [updated_at]. *)
Definition update_interaction_counts (is_like : bool) (now1 now2 : datetime)
    : Method unit :=
  (if is_like
   then n <- get likes_count ;; assign set_likes_count (n + 1)
   else n <- get dislikes_count ;; assign set_dislikes_count (n + 1)) ;;
  t <- get total_interactions ;;
  assign set_total_interactions (t + 1) ;;
  assign set_last_interaction_at (Some now1) ;;
  assign set_updated_at now2.

(** [calculate_win_probability(self, opponent_rating)], exact reading (the
    doubles are [Binary64.calculate_win_probability]). *)
Definition calculate_win_probability (opponent_rating : R) : Method R :=
  r <- get elo_rating ;;
  ret (1 / (1 + Rpower 10 ((opponent_rating - r) / 400)))%R.

(** [update_elo_rating(self, opponent_rating, won)], exact reading (the
    doubles are [Binary64.update_elo_rating]). *)
Definition update_elo_rating (opponent_rating : R) (won : bool) (now : datetime)
    : Method unit :=
  expected_score <- calculate_win_probability opponent_rating ;;
  let actual_score := (if won then 1 else 0)%R in
  r <- get elo_rating ;;
  k <- get elo_k_factor ;;
  assign set_elo_rating (r + k * (actual_score - expected_score))%R ;;
  t <- get total_interactions ;;
  assign set_confidence_score (Rmin 1 (IZR t / 100)) ;;
  assign set_updated_at now.

(** [get_ranking_score(self)]. *)
Definition get_ranking_score : Method R :=
  r <- get elo_rating ;;
  c <- get confidence_score ;;
  ret (r * c)%R.

Close Scope method_scope.

(** ** The binary64 reading

    The same card with its three [float] fields as IEEE doubles, and the
    two methods that compute with them.  A method returns a value or raises;
    either way it leaves a card behind, since it assigns to [self] in
    place. *)

Module Binary64.

Local Open Scope float_scope.

Inductive exception := OverflowError | ZeroDivisionError.

Inductive outcome (A : Type) :=
| Returns (a : A)
| Raises (e : exception).

Arguments Returns {A} a.
Arguments Raises {A} e.

Record Card := mkCard {
  id : string;
  title : string;
  created_at : datetime;
  updated_at : datetime;
  likes_count : Z;
  dislikes_count : Z;
  total_interactions : Z;
  last_interaction_at : option datetime;
  elo_rating : float;
  elo_k_factor : float;
  confidence_score : float
}.

Definition set_updated_at (v : datetime) (c : Card) : Card :=
  mkCard (id c) (title c) (created_at c) v
         (likes_count c) (dislikes_count c) (total_interactions c)
         (last_interaction_at c)
         (elo_rating c) (elo_k_factor c) (confidence_score c).

Definition set_elo_rating (v : float) (c : Card) : Card :=
  mkCard (id c) (title c) (created_at c) (updated_at c)
         (likes_count c) (dislikes_count c) (total_interactions c)
         (last_interaction_at c)
         v (elo_k_factor c) (confidence_score c).

Definition set_confidence_score (v : float) (c : Card) : Card :=
  mkCard (id c) (title c) (created_at c) (updated_at c)
         (likes_count c) (dislikes_count c) (total_interactions c)
         (last_interaction_at c)
         (elo_rating c) (elo_k_factor c) v.

(** A card with the given rating and K-factor and the defaults elsewhere. *)
Definition card_rated (elo k : float) : Card :=
  mkCard "card-1" "sample" 0 0 0 0 0 None elo k 0.

Definition Method (A : Type) : Type := Card -> outcome A * Card.

Definition ret {A : Type} (a : A) : Method A := fun self => (Returns a, self).

Definition bind {A B : Type} (m : Method A) (k : A -> Method B) : Method B :=
  fun self =>
    match m self with
    | (Returns a, self') => k a self'
    | (Raises e, self') => (Raises e, self')
    end.

Definition get {A : Type} (field : Card -> A) : Method A :=
  fun self => (Returns (field self), self).

Definition assign {A : Type} (setter : A -> Card -> Card) (v : A) : Method unit :=
  fun self => (Returns tt, setter v self).

(** An operation that returns or raises without touching the card. *)
Definition lift {A : Type} (o : outcome A) : Method A := fun self => (o, self).

(** What a call returns or raises, and the card it leaves behind. *)
Definition result {A : Type} (m : Method A) (self : Card) : outcome A :=
  fst (m self).
Definition state {A : Type} (m : Method A) (self : Card) : Card :=
  snd (m self).

Declare Scope b64_scope.

Notation "x <- m ;; k" := (bind m (fun x => k))
  (at level 61, m at next level, right associativity) : b64_scope.
Notation "m ;; k" := (bind m (fun _ => k))
  (at level 61, right associativity) : b64_scope.

(** [a / b] on Python floats. *)
Definition float_div (a b : float) : outcome float :=
  if b =? 0 then Raises ZeroDivisionError else Returns (a / b).

(** The conversion of an [int] operand of a float operation: the nearest
    double, ties to even, and [OverflowError] beyond the largest one. *)
Definition int_to_float (n : Z) : outcome float :=
  match binary_normalize prec emax n 0 false with
  | S754_infinity _ => Raises OverflowError
  | sf => Returns (SF2Prim sf)
  end.

(** [min(a, b)]: the first argument unless the second is smaller. *)
Definition py_min (a b : float) : float := if b <? a then b else a.

Section Platform.

(** The C library's [pow]: its value, and whether it set [errno] to
    [ERANGE]. *)
Variable libm_pow : float -> float -> float * bool.

(** [10.0 ** iw], CPython's [float_pow] at the base 10.0: a zero, NaN or
    infinite exponent is decided without the C library; otherwise the
    library is called, and an overflow (an infinite value, or [ERANGE] with
    a value other than 0) raises [OverflowError]. *)
Definition pow10 (iw : float) : outcome float :=
  if iw =? 0 then Returns 1
  else if is_nan iw then Returns iw
  else if is_infinity iw then Returns (if 0 <? iw then abs iw else 0)
  else
    let (ix, erange) := libm_pow 10 iw in
    if (if erange then negb (ix =? 0) else is_infinity ix)
    then Raises OverflowError
    else Returns ix.

Local Open Scope b64_scope.

(** [calculate_win_probability(self, opponent_rating)]. *)
Definition calculate_win_probability (opponent_rating : float) : Method float :=
  r <- get elo_rating ;;
  y <- lift (pow10 ((opponent_rating - r) / 400)) ;;
  lift (float_div 1 (1 + y)).

(** [update_elo_rating(self, opponent_rating, won)]. *)
Definition update_elo_rating (opponent_rating : float) (won : bool)
    (now : datetime) : Method unit :=
  expected_score <- calculate_win_probability opponent_rating ;;
  let actual_score := if won then 1 else 0 in
  r <- get elo_rating ;;
  k <- get elo_k_factor ;;
  assign set_elo_rating (r + k * (actual_score - expected_score)) ;;
  t <- get total_interactions ;;
  t' <- lift (int_to_float t) ;;
  assign set_confidence_score (py_min 1 (t' / 100)) ;;
  assign set_updated_at now.

End Platform.

End Binary64.

(** ** Sequences of calls *)

Inductive Call :=
| call_update_interaction_counts (is_like : bool) (now1 now2 : datetime)
| call_calculate_win_probability (opponent_rating : R)
| call_update_elo_rating (opponent_rating : R) (won : bool) (now : datetime)
| call_get_ranking_score.

(** The card after one call (a returned value is dropped). *)
Definition step (self : Card) (c : Call) : Card :=
  match c with
  | call_update_interaction_counts is_like now1 now2 =>
      exec (update_interaction_counts is_like now1 now2) self
  | call_calculate_win_probability opp =>
      exec (calculate_win_probability opp) self
  | call_update_elo_rating opp won now =>
      exec (update_elo_rating opp won now) self
  | call_get_ranking_score =>
      exec get_ranking_score self
  end.

Definition run (calls : list Call) (self : Card) : Card :=
  fold_left step calls self.

(** One swipe: the flag and the two clock readings of the call. *)
Definition Swipe : Type := bool * (datetime * datetime).

Definition swipe_call (s : Swipe) : Call :=
  call_update_interaction_counts (fst s) (fst (snd s)) (snd (snd s)).

(** The value [update_elo_rating] stores in [confidence_score]:
    [min(1.0, self.total_interactions / 100.0)].  Python's [min] returns its
    first argument unless the second is strictly smaller, as [Rmin] does. *)
Definition confidence_of (self : Card) : R :=
  Rmin 1 (IZR (total_interactions self) / 100).

(** The calls that assign [confidence_score]. *)
Definition is_rating_update (c : Call) : bool :=
  match c with
  | call_update_elo_rating _ _ _ => true
  | _ => false
  end.

(** A card built with defaults only, for the examples. *)
Definition sample_card : Card :=
  Card_init "card-1" "sample" no_kwargs 0 0.

(** ** Observations on a sequence of calls

    What a sequence of calls contains, to state what [run] does with it. *)

Definition is_swipe (c : Call) : bool :=
  match c with
  | call_update_interaction_counts _ _ _ => true
  | _ => false
  end.

Definition is_like_swipe (c : Call) : bool :=
  match c with
  | call_update_interaction_counts is_like _ _ => is_like
  | _ => false
  end.

Definition is_dislike_swipe (c : Call) : bool :=
  match c with
  | call_update_interaction_counts is_like _ _ => negb is_like
  | _ => false
  end.

Fixpoint count_calls (p : Call -> bool) (calls : list Call) : Z :=
  match calls with
  | [] => 0
  | c :: rest => (if p c then 1 else 0) + count_calls p rest
  end.

(** The clock reading a call stores in [updated_at], if it stores one. *)
Definition updated_stamp (c : Call) : option datetime :=
  match c with
  | call_update_interaction_counts _ _ now2 => Some now2
  | call_update_elo_rating _ _ now => Some now
  | _ => None
  end.

(** The clock reading a call stores in [last_interaction_at], if any. *)
Definition interaction_stamp (c : Call) : option datetime :=
  match c with
  | call_update_interaction_counts _ now1 _ => Some now1
  | _ => None
  end.

(** The last reading of a sequence, or [start] when there is none. *)
Fixpoint last_stamp {A : Type} (stamp : Call -> option A) (calls : list Call)
    (start : A) : A :=
  match calls with
  | [] => start
  | c :: rest => last_stamp stamp rest (or_default (stamp c) start)
  end.

(** The clock readings of a sequence never go backwards: each one is at
    least the one before it, starting from [prev]. *)
Fixpoint clock_monotone (prev : datetime) (calls : list Call) : bool :=
  match calls with
  | [] => true
  | call_update_interaction_counts _ now1 now2 :: rest =>
      (prev <=? now1) && (now1 <=? now2) && clock_monotone now2 rest
  | call_update_elo_rating _ _ now :: rest =>
      (prev <=? now) && clock_monotone now rest
  | _ :: rest => clock_monotone prev rest
  end.

(** [t1 <= t2] for a reading that may be absent ([None] is before all). *)
Definition not_after (t1 : option datetime) (t2 : datetime) : Prop :=
  match t1 with
  | Some t => t <= t2
  | None => True
  end.

(** ** What each method computes, field by field *)

Section MethodEquations.

Variable self : Card.

Lemma interaction_total is_like now1 now2 :
  total_interactions (exec (update_interaction_counts is_like now1 now2) self)
  = total_interactions self + 1.
Proof. destruct is_like; reflexivity. Qed.

Lemma interaction_likes is_like now1 now2 :
  likes_count (exec (update_interaction_counts is_like now1 now2) self)
  = if is_like then likes_count self + 1 else likes_count self.
Proof. destruct is_like; reflexivity. Qed.

Lemma interaction_dislikes is_like now1 now2 :
  dislikes_count (exec (update_interaction_counts is_like now1 now2) self)
  = if is_like then dislikes_count self else dislikes_count self + 1.
Proof. destruct is_like; reflexivity. Qed.

Lemma interaction_confidence is_like now1 now2 :
  confidence_score (exec (update_interaction_counts is_like now1 now2) self)
  = confidence_score self.
Proof. destruct is_like; reflexivity. Qed.

Lemma win_probability_value opp :
  eval (calculate_win_probability opp) self
  = (1 / (1 + Rpower 10 ((opp - elo_rating self) / 400)))%R.
Proof. reflexivity. Qed.

Lemma win_probability_pure opp :
  exec (calculate_win_probability opp) self = self.
Proof. reflexivity. Qed.

Lemma ranking_score_pure : exec get_ranking_score self = self.
Proof. reflexivity. Qed.

Lemma elo_update_rating opp won now :
  elo_rating (exec (update_elo_rating opp won now) self)
  = (elo_rating self
     + elo_k_factor self
       * ((if won then 1 else 0) - eval (calculate_win_probability opp) self))%R.
Proof. reflexivity. Qed.

Lemma elo_update_confidence opp won now :
  confidence_score (exec (update_elo_rating opp won now) self)
  = confidence_of self.
Proof. reflexivity. Qed.

Lemma elo_update_counters opp won now :
  let self' := exec (update_elo_rating opp won now) self in
  likes_count self' = likes_count self
  /\ dislikes_count self' = dislikes_count self
  /\ total_interactions self' = total_interactions self.
Proof. repeat split. Qed.

End MethodEquations.

(** ** The logistic curve *)

Open Scope R_scope.

Lemma Rpower_positive (x y : R) : 0 < Rpower x y.
Proof. unfold Rpower. apply exp_pos. Qed.

Lemma ten_gt_one : 1 < 10.
Proof. lra. Qed.

Lemma win_probability_bounds (self : Card) (opp : R) :
  0 < eval (calculate_win_probability opp) self < 1.
Proof.
  rewrite win_probability_value.
  set (y := Rpower 10 ((opp - elo_rating self) / 400)).
  assert (Hy : 0 < y) by apply Rpower_positive.
  split.
  - apply Rdiv_lt_0_compat; lra.
  - apply (Rmult_lt_reg_r (1 + y)); [lra|].
    unfold Rdiv. rewrite Rmult_assoc, Rinv_l by lra. lra.
Qed.

Lemma logistic_reciprocal (x : R) :
  1 / (1 + Rpower 10 x) + 1 / (1 + Rpower 10 (- x)) = 1.
Proof.
  rewrite Rpower_Ropp.
  assert (Hy : 0 < Rpower 10 x) by apply Rpower_positive.
  field. split; lra.
Qed.

Lemma logistic_decreasing (x1 x2 : R) :
  x1 < x2 -> 1 / (1 + Rpower 10 x2) < 1 / (1 + Rpower 10 x1).
Proof.
  intros Hlt.
  pose proof (Rpower_positive 10 x1) as H1.
  pose proof (Rpower_lt 10 x1 x2 ten_gt_one Hlt) as H12.
  unfold Rdiv. rewrite !Rmult_1_l.
  apply Rinv_lt_contravar.
  - apply Rmult_lt_0_compat; lra.
  - lra.
Qed.

Lemma win_probability_sum (A B : Card) :
  eval (calculate_win_probability (elo_rating B)) A
  + eval (calculate_win_probability (elo_rating A)) B = 1.
Proof.
  rewrite !win_probability_value.
  replace ((elo_rating A - elo_rating B) / 400)
    with (- ((elo_rating B - elo_rating A) / 400)) by lra.
  apply logistic_reciprocal.
Qed.

Close Scope R_scope.

(** ** Counters along a sequence of calls *)

Lemma run_app (calls1 calls2 : list Call) (self : Card) :
  run (calls1 ++ calls2) self = run calls2 (run calls1 self).
Proof. unfold run. apply fold_left_app. Qed.

Lemma run_swipes_counters (swipes : list Swipe) :
  forall self : Card,
    total_interactions (run (map swipe_call swipes) self)
    = total_interactions self + Z.of_nat (length swipes)
    /\ likes_count (run (map swipe_call swipes) self)
       + dislikes_count (run (map swipe_call swipes) self)
       = likes_count self + dislikes_count self + Z.of_nat (length swipes).
Proof.
  induction swipes as [| [is_like [now1 now2]] rest IH]; intros self.
  - cbn. lia.
  - change (run (map swipe_call ((is_like, (now1, now2)) :: rest)) self)
      with (run (map swipe_call rest)
              (exec (update_interaction_counts is_like now1 now2) self)).
    destruct (IH (exec (update_interaction_counts is_like now1 now2) self))
      as [Ht Hs].
    rewrite Ht, Hs, interaction_total, interaction_likes, interaction_dislikes.
    cbn [length]. rewrite Nat2Z.inj_succ.
    destruct is_like; lia.
Qed.

Lemma step_keeps_balance (self : Card) (c : Call) :
  likes_count self + dislikes_count self = total_interactions self ->
  likes_count (step self c) + dislikes_count (step self c)
  = total_interactions (step self c).
Proof.
  intros Hbal.
  destruct c as [is_like now1 now2 | opp | opp won now |]; cbn [step].
  - rewrite interaction_total, interaction_likes, interaction_dislikes.
    destruct is_like; lia.
  - rewrite win_probability_pure. exact Hbal.
  - destruct (elo_update_counters self opp won now) as (Hl & Hd & Ht).
    rewrite Hl, Hd, Ht. exact Hbal.
  - rewrite ranking_score_pure. exact Hbal.
Qed.

Lemma run_keeps_balance (calls : list Call) :
  forall self : Card,
    likes_count self + dislikes_count self = total_interactions self ->
    likes_count (run calls self) + dislikes_count (run calls self)
    = total_interactions (run calls self).
Proof.
  induction calls as [| c rest IH]; intros self Hbal.
  - exact Hbal.
  - apply (IH (step self c)). apply step_keeps_balance. exact Hbal.
Qed.

Lemma step_keeps_confidence (self : Card) (c : Call) :
  is_rating_update c = false ->
  confidence_score (step self c) = confidence_score self.
Proof.
  destruct c as [is_like now1 now2 | opp | opp won now |]; cbn [step is_rating_update].
  - intros _. apply interaction_confidence.
  - reflexivity.
  - discriminate.
  - reflexivity.
Qed.

Lemma confidence_after_rating (self : Card) (opp : R) (won : bool) (now : datetime) :
  confidence_score (exec (update_elo_rating opp won now) self)
  = confidence_of (exec (update_elo_rating opp won now) self).
Proof. reflexivity. Qed.

Lemma confidence_of_half (self : Card) :
  total_interactions self = 50 -> confidence_of self = (1 / 2)%R.
Proof.
  intros H. unfold confidence_of. rewrite H.
  unfold Rmin. destruct (Rle_dec 1 (50 / 100)); lra.
Qed.

Lemma confidence_of_full (self : Card) :
  100 <= total_interactions self -> confidence_of self = 1%R.
Proof.
  intros H. unfold confidence_of.
  apply IZR_le in H.
  unfold Rmin. destruct (Rle_dec 1 (IZR (total_interactions self) / 100)); lra.
Qed.

(** ** Facts of the binary64 reading *)

Set Warnings "-inexact-float".

Lemma finite_sub_self (r : float) :
  is_finite r = true -> (r - r)%float = 0%float.
Proof.
  intros Hfin.
  rewrite <- (SF2Prim_Prim2SF (r - r)), sub_spec.
  unfold is_finite, is_nan, is_infinity in Hfin.
  rewrite !eqb_spec, abs_spec in Hfin.
  destruct (Prim2SF r) as [s | s | | s m e] eqn:Hr.
  - destruct s; reflexivity.
  - exfalso. destruct s; vm_compute in Hfin; discriminate.
  - exfalso. vm_compute in Hfin. discriminate.
  - unfold SF64sub, SFsub. cbv zeta.
    rewrite Z.sub_diag. reflexivity.
Qed.

Lemma binary64_win_probability_state
    (libm_pow : float -> float -> float * bool)
    (self : Binary64.Card) (opp : float) :
  Binary64.state (Binary64.calculate_win_probability libm_pow opp) self = self.
Proof.
  unfold Binary64.state, Binary64.calculate_win_probability, Binary64.bind,
    Binary64.get, Binary64.lift.
  destruct (Binary64.pow10 libm_pow ((opp - Binary64.elo_rating self) / 400));
    reflexivity.
Qed.

Lemma binary64_own_rating_half
    (libm_pow : float -> float -> float * bool) (self : Binary64.Card) :
  is_finite (Binary64.elo_rating self) = true ->
  Binary64.result
    (Binary64.calculate_win_probability libm_pow (Binary64.elo_rating self)) self
  = Binary64.Returns 0.5%float.
Proof.
  intros Hfin.
  unfold Binary64.result, Binary64.calculate_win_probability, Binary64.bind,
    Binary64.get, Binary64.lift.
  rewrite (finite_sub_self _ Hfin).
  reflexivity.
Qed.

(** ** Properties of the model *)

(** ** Small runs of the counters *)

Example three_swipes_counters :
  let c := run [call_update_interaction_counts true 10 11;
                call_update_interaction_counts false 20 21;
                call_update_interaction_counts true 30 31] sample_card in
  (likes_count c, dislikes_count c, total_interactions c,
   last_interaction_at c, updated_at c, created_at c)
  = (2, 1, 3, Some 30, 31, 0).
Proof. reflexivity. Qed.

Example rating_update_keeps_counters :
  let c := run [call_update_interaction_counts true 10 11;
                call_update_elo_rating 1500 true 12] sample_card in
  (likes_count c, dislikes_count c, total_interactions c,
   last_interaction_at c, updated_at c)
  = (1, 0, 1, Some 10, 12).
Proof. reflexivity. Qed.

(** C1, as the code has it: [confidence_score] is recomputed by
    [update_elo_rating] only.  Right after a call of [update_elo_rating],
    at the end of any sequence of calls, it equals
    [min(1.0, total_interactions / 100.0)]; every other call, in particular
    [update_interaction_counts], leaves it as it was.  After exactly 50
    recorded interactions followed by a rating update it is 0.5, and after
    150 of them followed by a rating update it is 1.0. *)
Theorem confidence_follows_rating_updates :
  (forall (self : Card) (calls : list Call) (opp : R) (won : bool) (now : datetime),
      let self' := run (calls ++ [call_update_elo_rating opp won now]) self in
      confidence_score self'
      = Rmin 1 (IZR (total_interactions self') / 100))
  /\ (forall (self : Card) (c : Call),
         is_rating_update c = false ->
         confidence_score (step self c) = confidence_score self)
  /\ (forall (id0 title0 : string) (elo k : option R) (tc tu : datetime)
             (swipes : list Swipe) (opp : R) (won : bool) (now : datetime),
         length swipes = 50%nat ->
         confidence_score
           (run (map swipe_call swipes ++ [call_update_elo_rating opp won now])
                (Card_init id0 title0 (rating_kwargs elo k) tc tu))
         = (1 / 2)%R)
  /\ (forall (id0 title0 : string) (elo k : option R) (tc tu : datetime)
             (swipes : list Swipe) (opp : R) (won : bool) (now : datetime),
         length swipes = 150%nat ->
         confidence_score
           (run (map swipe_call swipes ++ [call_update_elo_rating opp won now])
                (Card_init id0 title0 (rating_kwargs elo k) tc tu))
         = 1%R).
Proof.
  split; [| split; [| split]].
  - intros self calls opp won now self'. subst self'.
    rewrite run_app. cbn [run fold_left step].
    apply confidence_after_rating.
  - exact step_keeps_confidence.
  - intros id0 title0 elo k tc tu swipes opp won now Hlen.
    rewrite run_app. cbn [run fold_left step].
    rewrite elo_update_confidence.
    apply confidence_of_half.
    fold (run (map swipe_call swipes)
              (Card_init id0 title0 (rating_kwargs elo k) tc tu)).
    destruct (run_swipes_counters swipes
                (Card_init id0 title0 (rating_kwargs elo k) tc tu)) as [Ht _].
    rewrite Ht, Hlen. reflexivity.
  - intros id0 title0 elo k tc tu swipes opp won now Hlen.
    rewrite run_app. cbn [run fold_left step].
    rewrite elo_update_confidence.
    apply confidence_of_full.
    fold (run (map swipe_call swipes)
              (Card_init id0 title0 (rating_kwargs elo k) tc tu)).
    destruct (run_swipes_counters swipes
                (Card_init id0 title0 (rating_kwargs elo k) tc tu)) as [Ht _].
    rewrite Ht, Hlen. cbn. lia.
Qed.

(** Fifty likes, and 150 dislikes, each followed by one rating update on a
    default card; and a swipe, which is not a rating update. *)
Lemma confidence_follows_rating_updates_witness :
  confidence_score
    (run (map swipe_call (repeat (true, (1, 1)) 50)
          ++ [call_update_elo_rating 1500 true 2])
         (Card_init "card-1" "sample" (rating_kwargs None None) 0 0))
  = (1 / 2)%R
  /\ confidence_score
       (run (map swipe_call (repeat (false, (1, 1)) 150)
             ++ [call_update_elo_rating 1500 false 2])
            (Card_init "card-1" "sample" (rating_kwargs None None) 0 0))
     = 1%R
  /\ confidence_score (step sample_card (call_update_interaction_counts true 1 1))
     = confidence_score sample_card.
Proof.
  destruct confidence_follows_rating_updates as (_ & Hstep & H50 & H150).
  split; [| split].
  - apply H50. reflexivity.
  - apply H150. reflexivity.
  - apply Hstep. reflexivity.
Defined.

(** C1 as stated fails: one recorded interaction on a default card leaves
    [confidence_score] at 0.0 while [total_interactions] is 1. *)
Lemma confidence_stale_after_interaction :
  confidence_score
    (run [call_update_interaction_counts true 1 1] sample_card) = 0%R
  /\ total_interactions
       (run [call_update_interaction_counts true 1 1] sample_card) = 1
  /\ confidence_score
       (run [call_update_interaction_counts true 1 1] sample_card)
     <> Rmin 1
          (IZR (total_interactions
                  (run [call_update_interaction_counts true 1 1] sample_card))
           / 100).
Proof.
  assert (Hc : confidence_score
                 (run [call_update_interaction_counts true 1 1] sample_card)
               = 0%R) by reflexivity.
  assert (Ht : total_interactions
                 (run [call_update_interaction_counts true 1 1] sample_card)
               = 1) by reflexivity.
  split; [exact Hc | split; [exact Ht |]].
  rewrite Hc, Ht.
  unfold Rmin. destruct (Rle_dec 1 (1 / 100)); lra.
Qed.

(** C2: [update_elo_rating(opp, won)] sets [elo_rating] to
    [r + k * (actual - expected)], with [expected] the value of
    [calculate_win_probability(opp)] on the card before the call and [actual]
    1.0 if [won] else 0.0.  A card at 1500.0 with K-factor 32.0 that beats
    an opponent at 1500.0 ends at 1516.0, and one that loses ends at
    1484.0. *)
Theorem update_elo_rating_formula :
  (forall (self : Card) (opp : R) (won : bool) (now : datetime),
      let r := elo_rating self in
      let k := elo_k_factor self in
      let expected := eval (calculate_win_probability opp) self in
      let actual := (if won then 1 else 0)%R in
      elo_rating (exec (update_elo_rating opp won now) self)
      = (r + k * (actual - expected))%R)
  /\ (forall (i t : string) (ca ua : datetime) (l d n : Z)
             (li : option datetime) (conf : R) (now : datetime),
         elo_rating (exec (update_elo_rating 1500 true now)
                          (mkCard i t ca ua l d n li 1500 32 conf))
         = 1516%R
         /\ elo_rating (exec (update_elo_rating 1500 false now)
                             (mkCard i t ca ua l d n li 1500 32 conf))
            = 1484%R).
Proof.
  split.
  - intros self opp won now r k expected actual. reflexivity.
  - intros i t ca ua l d n li conf now.
    rewrite !elo_update_rating, !win_probability_value.
    cbn [elo_rating elo_k_factor].
    replace ((1500 - 1500) / 400)%R with 0%R by lra.
    rewrite Rpower_O by lra.
    split; lra.
Qed.

(** C3, as the code has it: [calculate_win_probability(opp)] leaves every
    field of the card as it was, in both readings.  Read over exact real
    arithmetic it returns [1 / (1 + 10^((opp - R) / 400))] for the card's
    rating [R], and its result lies strictly between 0 and 1. *)
Theorem calculate_win_probability_spec :
  (forall (self : Card) (opp : R),
      eval (calculate_win_probability opp) self
      = (1 / (1 + Rpower 10 ((opp - elo_rating self) / 400)))%R
      /\ exec (calculate_win_probability opp) self = self
      /\ (0 < eval (calculate_win_probability opp) self < 1)%R)
  /\ (forall (libm_pow : float -> float -> float * bool)
             (self : Binary64.Card) (opp : float),
         Binary64.state (Binary64.calculate_win_probability libm_pow opp) self
         = self).
Proof.
  split.
  - intros self opp. split; [| split].
    + apply win_probability_value.
    + apply win_probability_pure.
    + apply win_probability_bounds.
  - exact binary64_win_probability_state.
Qed.

(** C3 as stated fails on doubles: the returned value reaches both ends of
    the interval.  Whatever the C library's [pow], a card rated 1.7e308
    gets exactly 1.0 against an opponent rated -1.7e308 (the difference
    overflows to -inf and [10.0 ** -inf] is 0.0), and a card rated
    -1.7e308 gets exactly 0.0 against 1.7e308.  With [pow(10.0, -16.25)]
    = 5.62341325190349e-17, a card rated 8000.0 gets exactly 1.0 against
    an opponent rated 1500.0. *)
Lemma win_probability_reaches_endpoints :
  (is_finite 1.7e308 = true /\ is_finite (-1.7e308) = true)
  /\ (forall libm_pow : float -> float -> float * bool,
         Binary64.result
           (Binary64.calculate_win_probability libm_pow (-1.7e308)%float)
           (Binary64.card_rated 1.7e308 32)
         = Binary64.Returns 1%float)
  /\ (forall libm_pow : float -> float -> float * bool,
         Binary64.result
           (Binary64.calculate_win_probability libm_pow 1.7e308%float)
           (Binary64.card_rated (-1.7e308) 32)
         = Binary64.Returns 0%float)
  /\ (forall libm_pow : float -> float -> float * bool,
         libm_pow 10%float (-16.25)%float
         = (0x1.03558bafbcb19p-54%float, false) ->
         Binary64.result
           (Binary64.calculate_win_probability libm_pow 1500%float)
           (Binary64.card_rated 8000 32)
         = Binary64.Returns 1%float).
Proof.
  split; [split; reflexivity |].
  split; [intros libm_pow; reflexivity |].
  split; [intros libm_pow; reflexivity |].
  intros libm_pow Hpow.
  unfold Binary64.result, Binary64.calculate_win_probability, Binary64.bind,
    Binary64.get, Binary64.lift, Binary64.pow10.
  cbn [Binary64.card_rated Binary64.elo_rating fst snd].
  change ((1500 - 8000) / 400)%float with (-16.25)%float.
  rewrite Hpow. reflexivity.
Qed.

(** C4: reciprocity.  For cards A and B, the probability that A beats a
    card rated as B plus the probability that B beats a card rated as A
    is 1: the sum is within every tolerance of 1. *)
Theorem win_probability_reciprocal :
  forall A B : Card,
    (eval (calculate_win_probability (elo_rating B)) A
     + eval (calculate_win_probability (elo_rating A)) B = 1)%R
    /\ (forall tol : R,
           (0 <= tol)%R ->
           (Rabs (eval (calculate_win_probability (elo_rating B)) A
                  + eval (calculate_win_probability (elo_rating A)) B - 1)
            <= tol)%R).
Proof.
  intros A B.
  pose proof (win_probability_sum A B) as Hsum.
  split; [exact Hsum |].
  intros tol Htol. rewrite Hsum.
  replace (1 - 1)%R with 0%R by lra.
  rewrite Rabs_R0. exact Htol.
Qed.

(** A default card and a card rated 1700.0, with tolerance 1e-9. *)
Lemma win_probability_reciprocal_witness :
  let A := Card_init "card-a" "A" (rating_kwargs None None) 0 0 in
  let B := Card_init "card-b" "B" (rating_kwargs (Some 1700%R) None) 0 0 in
  (Rabs (eval (calculate_win_probability (elo_rating B)) A
         + eval (calculate_win_probability (elo_rating A)) B - 1)
   <= 1 / 1000000000)%R.
Proof.
  intros A B.
  apply (proj2 (win_probability_reciprocal A B)).
  lra.
Defined.




(** C6, as the code has it: against its own rating
    [calculate_win_probability] returns 0.5, over exact real arithmetic
    and on doubles alike (for every finite rating); and over exact real
    arithmetic, for a card of fixed rating, [calculate_win_probability(r)]
    is strictly decreasing in the opponent rating [r]. *)
Theorem win_probability_monotone :
  (forall (self : Card) (r1 r2 : R),
      (r1 < r2)%R ->
      (eval (calculate_win_probability r2) self
       < eval (calculate_win_probability r1) self)%R)
  /\ (forall self : Card,
         eval (calculate_win_probability (elo_rating self)) self = (1 / 2)%R)
  /\ (forall (libm_pow : float -> float -> float * bool) (self : Binary64.Card),
         is_finite (Binary64.elo_rating self) = true ->
         Binary64.result
           (Binary64.calculate_win_probability libm_pow (Binary64.elo_rating self))
           self
         = Binary64.Returns 0.5%float).
Proof.
  split; [| split].
  - intros self r1 r2 Hlt. rewrite !win_probability_value.
    apply logistic_decreasing. lra.
  - intros self. rewrite win_probability_value.
    replace ((elo_rating self - elo_rating self) / 400)%R with 0%R by lra.
    rewrite Rpower_O by lra. lra.
  - exact binary64_own_rating_half.
Qed.

(** A default card against opponents at 1400.0 and at 1600.0, and a card
    of doubles rated 1500.0 against its own rating. *)
Lemma win_probability_monotone_witness :
  (eval (calculate_win_probability 1600) sample_card
   < eval (calculate_win_probability 1400) sample_card)%R
  /\ (forall libm_pow : float -> float -> float * bool,
         Binary64.result
           (Binary64.calculate_win_probability libm_pow 1500%float)
           (Binary64.card_rated 1500 32)
         = Binary64.Returns 0.5%float).
Proof.
  split.
  - apply (proj1 win_probability_monotone sample_card 1400%R 1600%R).
    lra.
  - intros libm_pow.
    apply (proj2 (proj2 win_probability_monotone) libm_pow
                 (Binary64.card_rated 1500 32)).
    reflexivity.
Defined.

(** C6 as stated fails on doubles: the value is not strictly decreasing.
    Whatever the C library's [pow], a card rated 1.7e308 gets exactly 1.0
    against the opponent ratings -1.7e308 and -1.6e308, the second being
    the larger.  With [pow(10.0, -17.5)] = 3.1622776601683795e-18 and
    [pow(10.0, -16.25)] = 5.62341325190349e-17, a card rated 8000.0 gets
    exactly 1.0 against both 1000.0 and 1500.0. *)
Lemma win_probability_plateau :
  ((-1.7e308 <? -1.6e308)%float = true
   /\ is_finite 1.7e308 = true
   /\ is_finite (-1.7e308) = true
   /\ is_finite (-1.6e308) = true)
  /\ (forall libm_pow : float -> float -> float * bool,
         Binary64.result
           (Binary64.calculate_win_probability libm_pow (-1.7e308)%float)
           (Binary64.card_rated 1.7e308 32)
         = Binary64.Returns 1%float
         /\ Binary64.result
              (Binary64.calculate_win_probability libm_pow (-1.6e308)%float)
              (Binary64.card_rated 1.7e308 32)
            = Binary64.Returns 1%float)
  /\ (forall libm_pow : float -> float -> float * bool,
         libm_pow 10%float (-17.5)%float
         = (0x1.d2ab78e5b8623p-59%float, false) ->
         libm_pow 10%float (-16.25)%float
         = (0x1.03558bafbcb19p-54%float, false) ->
         Binary64.result
           (Binary64.calculate_win_probability libm_pow 1000%float)
           (Binary64.card_rated 8000 32)
         = Binary64.Returns 1%float
         /\ Binary64.result
              (Binary64.calculate_win_probability libm_pow 1500%float)
              (Binary64.card_rated 8000 32)
            = Binary64.Returns 1%float).
Proof.
  split; [repeat split |].
  split; [intros libm_pow; split; reflexivity |].
  intros libm_pow Hpow1 Hpow2.
  unfold Binary64.result, Binary64.calculate_win_probability, Binary64.bind,
    Binary64.get, Binary64.lift, Binary64.pow10.
  cbn [Binary64.card_rated Binary64.elo_rating fst snd].
  change ((1000 - 8000) / 400)%float with (-17.5)%float.
  change ((1500 - 8000) / 400)%float with (-16.25)%float.
  rewrite Hpow1, Hpow2. split; reflexivity.
Qed.

(** C7: on a freshly constructed card, after exactly N calls of
    [update_interaction_counts], whatever the flags, [total_interactions]
    is N and [likes_count + dislikes_count] is N; and every operation
    preserves [likes_count + dislikes_count == total_interactions]. *)
Theorem interaction_counts_balance :
  (forall (id0 title0 : string) (elo k : option R) (tc tu : datetime)
          (swipes : list Swipe),
      let c := run (map swipe_call swipes)
                   (Card_init id0 title0 (rating_kwargs elo k) tc tu) in
      total_interactions c = Z.of_nat (length swipes)
      /\ likes_count c + dislikes_count c = Z.of_nat (length swipes))
  /\ (forall (self : Card) (c : Call),
         likes_count self + dislikes_count self = total_interactions self ->
         likes_count (step self c) + dislikes_count (step self c)
         = total_interactions (step self c))
  /\ (forall (self : Card) (calls : list Call),
         likes_count self + dislikes_count self = total_interactions self ->
         likes_count (run calls self) + dislikes_count (run calls self)
         = total_interactions (run calls self)).
Proof.
  split; [| split].
  - intros id0 title0 elo k tc tu swipes c. subst c.
    destruct (run_swipes_counters swipes
                (Card_init id0 title0 (rating_kwargs elo k) tc tu)) as [Ht Hs].
    rewrite Ht, Hs. cbn. lia.
  - exact step_keeps_balance.
  - intros self calls. apply run_keeps_balance.
Qed.

(** A card with 3 likes and 2 dislikes out of 5, rated once and swiped
    once more. *)
Lemma interaction_counts_balance_witness :
  let self := mkCard "card-1" "sample" 0 0 3 2 5 (Some 0) 1500 32 0 in
  let calls := [call_update_elo_rating 1500 true 1;
                call_update_interaction_counts false 2 3] in
  likes_count (run calls self) + dislikes_count (run calls self)
  = total_interactions (run calls self).
Proof.
  intros self calls.
  apply (proj2 (proj2 interaction_counts_balance) self calls).
  reflexivity.
Defined.

(** C8: [get_ranking_score()] returns [elo_rating * confidence_score] and
    leaves the card as it was; on a freshly constructed card it returns 0.0
    whatever the rating given to the constructor. *)
Theorem get_ranking_score_spec :
  (forall self : Card,
      eval get_ranking_score self = (elo_rating self * confidence_score self)%R
      /\ exec get_ranking_score self = self)
  /\ (forall (id0 title0 : string) (elo k : option R) (tc tu : datetime),
         eval get_ranking_score
              (Card_init id0 title0 (rating_kwargs elo k) tc tu) = 0%R).
Proof.
  split.
  - intros self. split; reflexivity.
  - intros id0 title0 elo k tc tu.
    change (eval get_ranking_score
              (Card_init id0 title0 (rating_kwargs elo k) tc tu))
      with (or_default elo 1500 * 0)%R.
    apply Rmult_0_r.
Qed.

(** C9: [update_interaction_counts(is_like)] adds one to [likes_count] or
    to [dislikes_count] according to the flag, adds one to
    [total_interactions], sets [last_interaction_at] and [updated_at] to the
    clock readings, and leaves [elo_rating], [elo_k_factor],
    [confidence_score], [id], [title] and [created_at] as they were. *)
Theorem update_interaction_counts_frame :
  forall (self : Card) (is_like : bool) (now1 now2 : datetime),
    let self' := exec (update_interaction_counts is_like now1 now2) self in
    likes_count self'
    = (if is_like then likes_count self + 1 else likes_count self)
    /\ dislikes_count self'
       = (if is_like then dislikes_count self else dislikes_count self + 1)
    /\ total_interactions self' = total_interactions self + 1
    /\ last_interaction_at self' = Some now1
    /\ updated_at self' = now2
    /\ elo_rating self' = elo_rating self
    /\ elo_k_factor self' = elo_k_factor self
    /\ confidence_score self' = confidence_score self
    /\ id self' = id self
    /\ title self' = title self
    /\ created_at self' = created_at self.
Proof.
  intros self is_like now1 now2 self'. subst self'.
  destruct is_like; repeat split.
Qed.

(** C10: for cards A and B with the same K-factor, updating A against B's
    rating with outcome [won] and B against A's rating with the opposite
    outcome, both from the ratings before the update, leaves the sum of
    the two ratings as it was. *)
Theorem pairwise_update_conserves_rating :
  forall (A B : Card) (won : bool) (nowA nowB : datetime),
    elo_k_factor A = elo_k_factor B ->
    (elo_rating (exec (update_elo_rating (elo_rating B) won nowA) A)
     + elo_rating (exec (update_elo_rating (elo_rating A) (negb won) nowB) B)
     = elo_rating A + elo_rating B)%R.
Proof.
  intros A B won nowA nowB Hk.
  rewrite !elo_update_rating, Hk.
  pose proof (win_probability_sum A B) as Hrec.
  set (pA := eval (calculate_win_probability (elo_rating B)) A) in *.
  set (pB := eval (calculate_win_probability (elo_rating A)) B) in *.
  replace pB with (1 - pA)%R by lra.
  destruct won; cbn [negb]; ring.
Qed.

(** A card at 1500.0 beats a card at 1700.0, both with K-factor 32.0. *)
Lemma pairwise_update_conserves_rating_witness :
  let A := Card_init "card-a" "A" (rating_kwargs None None) 0 0 in
  let B := Card_init "card-b" "B" (rating_kwargs (Some 1700%R) None) 0 0 in
  (elo_rating (exec (update_elo_rating (elo_rating B) true 1) A)
   + elo_rating (exec (update_elo_rating (elo_rating A) (negb true) 1) B)
   = elo_rating A + elo_rating B)%R.
Proof.
  intros A B.
  apply (pairwise_update_conserves_rating A B true 1 1).
  reflexivity.
Defined.

(** ** Further properties: what a sequence of calls does to each field *)

Lemma run_cons (c : Call) (rest : list Call) (self : Card) :
  run (c :: rest) self = run rest (step self c).
Proof. reflexivity. Qed.

Lemma step_identity (self : Card) (c : Call) :
  id (step self c) = id self
  /\ title (step self c) = title self
  /\ created_at (step self c) = created_at self
  /\ elo_k_factor (step self c) = elo_k_factor self.
Proof.
  destruct c as [is_like now1 now2 | opp | opp won now |];
    [destruct is_like | | |]; repeat split.
Qed.

Lemma step_counters (self : Card) (c : Call) :
  total_interactions (step self c)
  = total_interactions self + (if is_swipe c then 1 else 0)
  /\ likes_count (step self c)
     = likes_count self + (if is_like_swipe c then 1 else 0)
  /\ dislikes_count (step self c)
     = dislikes_count self + (if is_dislike_swipe c then 1 else 0).
Proof.
  destruct c as [is_like now1 now2 | opp | opp won now |];
    [destruct is_like | | |]; cbn; repeat split; lia.
Qed.

Lemma step_stamps (self : Card) (c : Call) :
  updated_at (step self c) = or_default (updated_stamp c) (updated_at self)
  /\ last_interaction_at (step self c)
     = or_default (option_map Some (interaction_stamp c))
                  (last_interaction_at self).
Proof.
  destruct c as [is_like now1 now2 | opp | opp won now |];
    [destruct is_like | | |]; split; reflexivity.
Qed.

Lemma count_calls_nonneg (p : Call -> bool) (calls : list Call) :
  0 <= count_calls p calls.
Proof.
  induction calls as [| c rest IH]; cbn [count_calls]; [lia |].
  destruct (p c); lia.
Qed.

Lemma run_counters (calls : list Call) :
  forall self : Card,
    total_interactions (run calls self)
    = total_interactions self + count_calls is_swipe calls
    /\ likes_count (run calls self)
       = likes_count self + count_calls is_like_swipe calls
    /\ dislikes_count (run calls self)
       = dislikes_count self + count_calls is_dislike_swipe calls.
Proof.
  induction calls as [| c rest IH]; intros self.
  - cbn. repeat split; lia.
  - rewrite run_cons. cbn [count_calls].
    destruct (IH (step self c)) as (Ht & Hl & Hd).
    destruct (step_counters self c) as (St & Sl & Sd).
    rewrite Ht, Hl, Hd, St, Sl, Sd. repeat split; lia.
Qed.

(** X1: no sequence of calls changes [id], [title], [created_at] or
    [elo_k_factor]: the four methods never assign them. *)
Theorem run_keeps_identity :
  forall (calls : list Call) (self : Card),
    id (run calls self) = id self
    /\ title (run calls self) = title self
    /\ created_at (run calls self) = created_at self
    /\ elo_k_factor (run calls self) = elo_k_factor self.
Proof.
  induction calls as [| c rest IH]; intros self.
  - repeat split.
  - rewrite run_cons.
    destruct (IH (step self c)) as (Hi & Ht & Hc & Hk).
    destruct (step_identity self c) as (Si & St & Sc & Sk).
    rewrite Hi, Ht, Hc, Hk. repeat split; assumption.
Qed.

(** X2: along any sequence of calls, whatever the methods mixed in it,
    [total_interactions] grows by the number of calls of
    [update_interaction_counts], [likes_count] by the number of those with
    [is_like] true and [dislikes_count] by the number with [is_like]
    false; so none of the three counters ever decreases. *)
Theorem run_counts_swipes :
  forall (calls : list Call) (self : Card),
    (total_interactions (run calls self)
     = total_interactions self + count_calls is_swipe calls
     /\ likes_count (run calls self)
        = likes_count self + count_calls is_like_swipe calls
     /\ dislikes_count (run calls self)
        = dislikes_count self + count_calls is_dislike_swipe calls)
    /\ total_interactions self <= total_interactions (run calls self)
    /\ likes_count self <= likes_count (run calls self)
    /\ dislikes_count self <= dislikes_count (run calls self).
Proof.
  intros calls self.
  pose proof (run_counters calls self) as (Ht & Hl & Hd).
  pose proof (count_calls_nonneg is_swipe calls).
  pose proof (count_calls_nonneg is_like_swipe calls).
  pose proof (count_calls_nonneg is_dislike_swipe calls).
  repeat split; lia.
Qed.

Lemma run_without_rating (calls : list Call) :
  forall self : Card,
    forallb (fun c => negb (is_rating_update c)) calls = true ->
    elo_rating (run calls self) = elo_rating self
    /\ confidence_score (run calls self) = confidence_score self.
Proof.
  induction calls as [| c rest IH]; intros self Hall.
  - split; reflexivity.
  - cbn [forallb] in Hall. apply andb_true_iff in Hall as [Hc Hrest].
    rewrite run_cons.
    destruct (IH (step self c) Hrest) as [He Hf].
    rewrite He, Hf.
    destruct c as [is_like now1 now2 | opp | opp won now |];
      [destruct is_like | | discriminate |]; split; reflexivity.
Qed.

Lemma run_without_swipe (calls : list Call) :
  forall self : Card,
    forallb (fun c => negb (is_swipe c)) calls = true ->
    likes_count (run calls self) = likes_count self
    /\ dislikes_count (run calls self) = dislikes_count self
    /\ total_interactions (run calls self) = total_interactions self
    /\ last_interaction_at (run calls self) = last_interaction_at self.
Proof.
  induction calls as [| c rest IH]; intros self Hall.
  - repeat split.
  - cbn [forallb] in Hall. apply andb_true_iff in Hall as [Hc Hrest].
    rewrite run_cons.
    destruct (IH (step self c) Hrest) as (Hl & Hd & Ht & Hi).
    rewrite Hl, Hd, Ht, Hi.
    destruct c as [is_like now1 now2 | opp | opp won now |];
      [discriminate | | |]; repeat split.
Qed.

(** X3: the two mutators keep to their own fields along a whole sequence.
    A sequence with no call of [update_elo_rating] leaves [elo_rating] and
    [confidence_score] as they were, and a sequence with no call of
    [update_interaction_counts] leaves the three counters and
    [last_interaction_at] as they were. *)
Theorem mutators_keep_apart :
  forall (calls : list Call) (self : Card),
    (forallb (fun c => negb (is_rating_update c)) calls = true ->
     elo_rating (run calls self) = elo_rating self
     /\ confidence_score (run calls self) = confidence_score self)
    /\ (forallb (fun c => negb (is_swipe c)) calls = true ->
        likes_count (run calls self) = likes_count self
        /\ dislikes_count (run calls self) = dislikes_count self
        /\ total_interactions (run calls self) = total_interactions self
        /\ last_interaction_at (run calls self) = last_interaction_at self).
Proof.
  intros calls self. split.
  - apply run_without_rating.
  - apply run_without_swipe.
Qed.

(** Two swipes and two reads keep the rating; two rating updates and a read
    keep the counters. *)
Lemma mutators_keep_apart_witness :
  (elo_rating
     (run [call_update_interaction_counts true 1 2; call_get_ranking_score;
           call_update_interaction_counts false 3 4;
           call_calculate_win_probability 1400] sample_card)
   = elo_rating sample_card)
  /\ (total_interactions
        (run [call_update_elo_rating 1400 true 1; call_get_ranking_score;
              call_update_elo_rating 1600 false 2] sample_card)
      = total_interactions sample_card).
Proof.
  split.
  - apply (proj1 (mutators_keep_apart _ sample_card)). reflexivity.
  - apply (proj2 (mutators_keep_apart _ sample_card)). reflexivity.
Defined.

(** ** Confidence never overstates the sample *)

Lemma confidence_of_le_1 (self : Card) : (confidence_of self <= 1)%R.
Proof. unfold confidence_of. apply Rmin_l. Qed.

Lemma confidence_of_sign (self : Card) :
  (0 <= confidence_of self)%R <-> 0 <= total_interactions self.
Proof.
  unfold confidence_of, Rmin.
  destruct (Rle_dec 1 (IZR (total_interactions self) / 100)) as [Hle | Hgt].
  - split; intros _; [| lra].
    apply le_IZR. lra.
  - split; intros H.
    + apply le_IZR. lra.
    + apply IZR_le in H. lra.
Qed.

Lemma confidence_of_mono (c1 c2 : Card) :
  total_interactions c1 <= total_interactions c2 ->
  (confidence_of c1 <= confidence_of c2)%R.
Proof.
  intros H. unfold confidence_of.
  apply Rle_min_compat_l. apply IZR_le in H. lra.
Qed.

Lemma step_keeps_confidence_bounds (self : Card) (c : Call) :
  0 <= total_interactions self ->
  (0 <= confidence_score self <= confidence_of self)%R ->
  0 <= total_interactions (step self c)
  /\ (0 <= confidence_score (step self c) <= confidence_of (step self c))%R.
Proof.
  intros Ht [H0 Hc].
  destruct (step_counters self c) as (St & _ & _).
  assert (Hmono : total_interactions self <= total_interactions (step self c))
    by (rewrite St; destruct (is_swipe c); lia).
  split; [lia |].
  destruct (is_rating_update c) eqn:Hr.
  - destruct c as [| | opp won now |]; try discriminate.
    cbn [step]. rewrite confidence_after_rating.
    split; [| lra].
    apply confidence_of_sign.
    destruct (elo_update_counters self opp won now) as (_ & _ & Hsame).
    rewrite Hsame. exact Ht.
  - rewrite (step_keeps_confidence self c Hr).
    split; [exact H0 |].
    apply Rle_trans with (confidence_of self); [exact Hc |].
    apply confidence_of_mono. exact Hmono.
Qed.

Lemma run_keeps_confidence_bounds (calls : list Call) :
  forall self : Card,
    0 <= total_interactions self ->
    (0 <= confidence_score self <= confidence_of self)%R ->
    0 <= total_interactions (run calls self)
    /\ (0 <= confidence_score (run calls self)
        <= confidence_of (run calls self))%R.
Proof.
  induction calls as [| c rest IH]; intros self Ht Hc.
  - split; assumption.
  - rewrite run_cons.
    destruct (step_keeps_confidence_bounds self c Ht Hc) as [Ht' Hc'].
    apply IH; assumption.
Qed.

(** X4: [confidence_score] never overstates the sample.  If a card has a
    non-negative [total_interactions] and
    [0 <= confidence_score <= min(1.0, total_interactions / 100.0)], the
    same holds after every sequence of calls, so the score stays in
    [0, 1]; a freshly constructed card satisfies the premises, whatever
    rating and K-factor it is given. *)
Theorem confidence_never_overstated :
  (forall (calls : list Call) (self : Card),
      0 <= total_interactions self ->
      (0 <= confidence_score self <= confidence_of self)%R ->
      (0 <= confidence_score (run calls self)
       <= Rmin 1 (IZR (total_interactions (run calls self)) / 100))%R
      /\ (confidence_score (run calls self) <= 1)%R)
  /\ (forall (id0 title0 : string) (elo k : option R) (tc tu : datetime)
             (calls : list Call),
         let c := run calls (Card_init id0 title0 (rating_kwargs elo k) tc tu) in
         (0 <= confidence_score c
          <= Rmin 1 (IZR (total_interactions c) / 100))%R
         /\ (confidence_score c <= 1)%R).
Proof.
  assert (Hgen : forall (calls : list Call) (self : Card),
             0 <= total_interactions self ->
             (0 <= confidence_score self <= confidence_of self)%R ->
             (0 <= confidence_score (run calls self)
              <= Rmin 1 (IZR (total_interactions (run calls self)) / 100))%R
             /\ (confidence_score (run calls self) <= 1)%R).
  { intros calls self Ht Hc.
    destruct (run_keeps_confidence_bounds calls self Ht Hc) as [_ Hb].
    pose proof (confidence_of_le_1 (run calls self)) as H1.
    fold (confidence_of (run calls self)).
    split; [exact Hb | lra]. }
  split; [exact Hgen |].
  intros id0 title0 elo k tc tu calls c. subst c.
  apply Hgen.
  - cbn. lia.
  - change (confidence_score (Card_init id0 title0 (rating_kwargs elo k) tc tu))
      with 0%R.
    split; [lra |].
    apply confidence_of_sign. cbn. lia.
Qed.

(** A default card, swiped twice and rated in between. *)
Lemma confidence_never_overstated_witness :
  let c := run [call_update_interaction_counts true 1 2;
                call_update_elo_rating 1500 true 3;
                call_update_interaction_counts false 4 5] sample_card in
  (0 <= confidence_score c <= Rmin 1 (IZR (total_interactions c) / 100))%R
  /\ (confidence_score c <= 1)%R.
Proof.
  intros c.
  apply (proj1 confidence_never_overstated).
  - cbn. lia.
  - change (confidence_score sample_card) with 0%R.
    split; [lra |].
    apply confidence_of_sign. cbn. lia.
Defined.

(** X5: [update_elo_rating] clamps the stored confidence from above only.
    After the call [confidence_score] is at most 1.0, and it is
    non-negative exactly when [total_interactions] is: a card given a
    negative [total_interactions] gets a negative confidence. *)
Theorem confidence_clamped_above_only :
  forall (self : Card) (opp : R) (won : bool) (now : datetime),
    let self' := exec (update_elo_rating opp won now) self in
    (confidence_score self' <= 1)%R
    /\ ((0 <= confidence_score self')%R <-> 0 <= total_interactions self)
    /\ (total_interactions self < 0 ->
        confidence_score self' = (IZR (total_interactions self) / 100)%R).
Proof.
  intros self opp won now self'. subst self'.
  rewrite elo_update_confidence.
  split; [apply confidence_of_le_1 | split; [apply confidence_of_sign |]].
  intros Hneg. unfold confidence_of, Rmin.
  apply IZR_lt in Hneg.
  destruct (Rle_dec 1 (IZR (total_interactions self) / 100)); [lra | reflexivity].
Qed.

(** A card built with [total_interactions=-50]. *)
Lemma confidence_clamped_above_only_witness :
  confidence_score
    (exec (update_elo_rating 1500 true 1)
          (mkCard "card-1" "sample" 0 0 0 0 (-50) None 1500 32 0))
  = (IZR (-50) / 100)%R.
Proof.
  apply (proj2 (proj2 (confidence_clamped_above_only
                         (mkCard "card-1" "sample" 0 0 0 0 (-50) None 1500 32 0)
                         1500 true 1))).
  cbn. lia.
Defined.

(** ** Timestamps *)

Lemma run_last_interaction (calls : list Call) :
  forall self : Card,
    last_interaction_at (run calls self)
    = last_stamp (fun c => option_map Some (interaction_stamp c)) calls
                 (last_interaction_at self).
Proof.
  induction calls as [| c rest IH]; intros self.
  - reflexivity.
  - rewrite run_cons, IH. cbn [last_stamp].
    destruct (step_stamps self c) as [_ Hl]. rewrite Hl. reflexivity.
Qed.

Lemma run_last_interaction_none (calls : list Call) :
  forall self : Card,
    last_interaction_at (run calls self) = None
    <-> (last_interaction_at self = None
         /\ forallb (fun c => negb (is_swipe c)) calls = true).
Proof.
  induction calls as [| c rest IH]; intros self.
  - cbn. tauto.
  - rewrite run_cons, IH. cbn [forallb]. rewrite andb_true_iff.
    destruct c as [is_like now1 now2 | opp | opp won now |].
    + assert (Hs : last_interaction_at
                     (step self (call_update_interaction_counts is_like now1 now2))
                   = Some now1) by (destruct is_like; reflexivity).
      rewrite Hs. cbn [is_swipe negb].
      split; [intros [H _]; discriminate | intros [_ [H _]]; discriminate].
    + cbn [step is_swipe negb]. rewrite win_probability_pure. tauto.
    + assert (Hs : last_interaction_at (step self (call_update_elo_rating opp won now))
                   = last_interaction_at self) by reflexivity.
      rewrite Hs. cbn [is_swipe negb]. tauto.
    + cbn [step is_swipe negb]. rewrite ranking_score_pure. tauto.
Qed.

(** X6: [last_interaction_at] is the first clock reading of the last call
    of [update_interaction_counts] in the sequence, or what it was when
    there is none.  Once set it is never unset, and on a freshly
    constructed card it is [None] exactly as long as no interaction has
    been recorded. *)
Theorem last_interaction_tracks_swipes :
  (forall (calls : list Call) (self : Card),
      last_interaction_at (run calls self)
      = last_stamp (fun c => option_map Some (interaction_stamp c)) calls
                   (last_interaction_at self))
  /\ (forall (calls : list Call) (self : Card),
         last_interaction_at self <> None ->
         last_interaction_at (run calls self) <> None)
  /\ (forall (id0 title0 : string) (elo k : option R) (tc tu : datetime)
             (calls : list Call),
         last_interaction_at
           (run calls (Card_init id0 title0 (rating_kwargs elo k) tc tu)) = None
         <-> forallb (fun c => negb (is_swipe c)) calls = true).
Proof.
  split; [| split].
  - intros calls self. apply run_last_interaction.
  - intros calls self Hset Hnone.
    apply run_last_interaction_none in Hnone as [H _]. contradiction.
  - intros id0 title0 elo k tc tu calls.
    rewrite run_last_interaction_none. cbn [Card_init last_interaction_at
      rating_kwargs kw_last_interaction_at or_default]. tauto.
Qed.

(** A card swiped at time 7 and then rated twice. *)
Lemma last_interaction_tracks_swipes_witness :
  last_interaction_at
    (run [call_update_elo_rating 1500 true 8; call_update_elo_rating 1400 false 9]
         (exec (update_interaction_counts true 7 7) sample_card))
  <> None.
Proof.
  apply (proj1 (proj2 last_interaction_tracks_swipes)).
  discriminate.
Defined.

Lemma run_clock (calls : list Call) :
  forall self : Card,
    clock_monotone (updated_at self) calls = true ->
    updated_at self <= updated_at (run calls self)
    /\ (created_at self <= updated_at self ->
        created_at (run calls self) <= updated_at (run calls self))
    /\ (not_after (last_interaction_at self) (updated_at self) ->
        not_after (last_interaction_at (run calls self))
                  (updated_at (run calls self))).
Proof.
  induction calls as [| c rest IH]; intros self Hclock.
  - cbn. repeat split; auto; lia.
  - rewrite run_cons.
    destruct c as [is_like now1 now2 | opp | opp won now |].
    + cbn [clock_monotone] in Hclock.
      apply andb_true_iff in Hclock as [Hclock Hrest].
      apply andb_true_iff in Hclock as [H1 H2].
      apply Z.leb_le in H1. apply Z.leb_le in H2.
      set (self' := step self (call_update_interaction_counts is_like now1 now2)).
      assert (Hu : updated_at self' = now2)
        by (subst self'; destruct is_like; reflexivity).
      assert (Hl : last_interaction_at self' = Some now1)
        by (subst self'; destruct is_like; reflexivity).
      assert (Hc : created_at self' = created_at self)
        by (subst self'; destruct is_like; reflexivity).
      rewrite <- Hu in Hrest.
      destruct (IH self' Hrest) as (Hmono & Hcre & Hlast).
      split; [lia | split].
      * intros Hcu. apply Hcre. lia.
      * intros _. apply Hlast. rewrite Hl, Hu. cbn [not_after]. lia.
    + cbn [clock_monotone] in Hclock. cbn [step].
      rewrite win_probability_pure. apply IH. exact Hclock.
    + cbn [clock_monotone] in Hclock.
      apply andb_true_iff in Hclock as [H1 Hrest].
      apply Z.leb_le in H1.
      set (self' := step self (call_update_elo_rating opp won now)).
      assert (Hu : updated_at self' = now) by reflexivity.
      assert (Hl : last_interaction_at self' = last_interaction_at self)
        by reflexivity.
      assert (Hc : created_at self' = created_at self) by reflexivity.
      rewrite <- Hu in Hrest.
      destruct (IH self' Hrest) as (Hmono & Hcre & Hlast).
      split; [lia | split].
      * intros Hcu. apply Hcre. lia.
      * intros Hla. apply Hlast. rewrite Hl, Hu.
        destruct (last_interaction_at self); cbn [not_after] in *; [lia | exact I].
    + cbn [clock_monotone] in Hclock. cbn [step].
      rewrite ranking_score_pure. apply IH. exact Hclock.
Qed.

Lemma run_updated_at (calls : list Call) :
  forall self : Card,
    updated_at (run calls self)
    = last_stamp updated_stamp calls (updated_at self).
Proof.
  induction calls as [| c rest IH]; intros self.
  - reflexivity.
  - rewrite run_cons, IH. cbn [last_stamp].
    destruct (step_stamps self c) as [Hu _]. rewrite Hu. reflexivity.
Qed.

(** X7: [updated_at] is the clock reading of the last mutating call (the
    second reading for [update_interaction_counts]); the read-only methods
    do not touch it.  When the clock readings of the sequence never go
    backwards, starting from the card's [updated_at], then [updated_at]
    does not decrease, and [created_at <= updated_at] and
    [last_interaction_at <= updated_at] are kept. *)
Theorem timestamps_follow_clock :
  forall (calls : list Call) (self : Card),
    updated_at (run calls self)
    = last_stamp updated_stamp calls (updated_at self)
    /\ (clock_monotone (updated_at self) calls = true ->
        updated_at self <= updated_at (run calls self)
        /\ (created_at self <= updated_at self ->
            created_at (run calls self) <= updated_at (run calls self))
        /\ (not_after (last_interaction_at self) (updated_at self) ->
            not_after (last_interaction_at (run calls self))
                      (updated_at (run calls self)))).
Proof.
  intros calls self. split.
  - apply run_updated_at.
  - apply run_clock.
Qed.

(** A default card created at time 0, swiped at 1-2, read, rated at 5. *)
Lemma timestamps_follow_clock_witness :
  let calls := [call_update_interaction_counts true 1 2;
                call_get_ranking_score;
                call_update_elo_rating 1500 false 5] in
  updated_at sample_card <= updated_at (run calls sample_card)
  /\ created_at (run calls sample_card) <= updated_at (run calls sample_card)
  /\ not_after (last_interaction_at (run calls sample_card))
               (updated_at (run calls sample_card)).
Proof.
  intros calls.
  destruct (proj2 (timestamps_follow_clock calls sample_card) eq_refl)
    as (Hmono & Hcre & Hlast).
  split; [exact Hmono | split].
  - apply Hcre. cbn. lia.
  - apply Hlast. exact I.
Defined.

(** ** The size and direction of a rating update *)

Open Scope R_scope.

Lemma win_probability_own_rating (c1 c2 : Card) (opp : R) :
  elo_rating c1 < elo_rating c2 ->
  eval (calculate_win_probability opp) c1
  < eval (calculate_win_probability opp) c2.
Proof.
  intros Hlt. rewrite !win_probability_value.
  apply logistic_decreasing. lra.
Qed.

Lemma win_probability_opponent (self : Card) (r1 r2 : R) :
  r1 < r2 ->
  eval (calculate_win_probability r2) self
  < eval (calculate_win_probability r1) self.
Proof.
  intros Hlt. rewrite !win_probability_value.
  apply logistic_decreasing. lra.
Qed.

Lemma surprise_below_one (self : Card) (opp : R) (won : bool) :
  Rabs ((if won then 1 else 0) - eval (calculate_win_probability opp) self) < 1.
Proof.
  pose proof (win_probability_bounds self opp) as [H0 H1].
  apply Rabs_def1; destruct won; lra.
Qed.

Lemma step_rating_change (self : Card) (c : Call) :
  Rabs (elo_rating (step self c) - elo_rating self)
  <= (if is_rating_update c then Rabs (elo_k_factor self) else 0).
Proof.
  destruct c as [is_like now1 now2 | opp | opp won now |].
  - assert (H : elo_rating (step self (call_update_interaction_counts is_like now1 now2))
                = elo_rating self) by (destruct is_like; reflexivity).
    rewrite H. cbn [is_rating_update].
    replace (elo_rating self - elo_rating self) with 0 by lra.
    rewrite Rabs_R0. lra.
  - cbn [step is_rating_update]. rewrite win_probability_pure.
    replace (elo_rating self - elo_rating self) with 0 by lra.
    rewrite Rabs_R0. lra.
  - cbn [step is_rating_update]. rewrite elo_update_rating.
    match goal with
    | |- Rabs ?e <= _ =>
        replace e with (elo_k_factor self
                        * ((if won then 1 else 0)
                           - eval (calculate_win_probability opp) self)) by lra
    end.
    rewrite Rabs_mult.
    pose proof (surprise_below_one self opp won) as Hs.
    pose proof (Rabs_pos (elo_k_factor self)) as Hk.
    rewrite <- (Rmult_1_r (Rabs (elo_k_factor self))) at 2.
    apply Rmult_le_compat_l; lra.
  - cbn [step is_rating_update]. rewrite ranking_score_pure.
    replace (elo_rating self - elo_rating self) with 0 by lra.
    rewrite Rabs_R0. lra.
Qed.

Lemma run_rating_drift (calls : list Call) :
  forall self : Card,
    Rabs (elo_rating (run calls self) - elo_rating self)
    <= IZR (count_calls is_rating_update calls) * Rabs (elo_k_factor self).
Proof.
  induction calls as [| c rest IH]; intros self.
  - cbn [run fold_left count_calls].
    replace (elo_rating self - elo_rating self) with 0 by lra.
    rewrite Rabs_R0. lra.
  - rewrite run_cons. cbn [count_calls].
    pose proof (IH (step self c)) as Hrest.
    destruct (step_identity self c) as (_ & _ & _ & Hk). rewrite Hk in Hrest.
    pose proof (step_rating_change self c) as Hstep.
    replace (elo_rating (run rest (step self c)) - elo_rating self)
      with ((elo_rating (run rest (step self c)) - elo_rating (step self c))
            + (elo_rating (step self c) - elo_rating self)) by lra.
    eapply Rle_trans; [apply Rabs_triang |].
    rewrite plus_IZR.
    destruct (is_rating_update c); lra.
Qed.

(** X8: one call of [update_elo_rating] moves the rating by less than the
    K-factor in absolute value (by nothing when the K-factor is 0.0), and
    a sequence of calls moves it by at most the number of rating updates
    in it times the K-factor. *)
Theorem rating_drift_bounded :
  (forall (self : Card) (opp : R) (won : bool) (now : datetime),
      Rabs (elo_rating (exec (update_elo_rating opp won now) self)
            - elo_rating self)
      <= Rabs (elo_k_factor self)
      /\ (elo_k_factor self <> 0 ->
          Rabs (elo_rating (exec (update_elo_rating opp won now) self)
                - elo_rating self)
          < Rabs (elo_k_factor self)))
  /\ (forall (calls : list Call) (self : Card),
         Rabs (elo_rating (run calls self) - elo_rating self)
         <= IZR (count_calls is_rating_update calls)
            * Rabs (elo_k_factor self)).
Proof.
  split.
  - intros self opp won now. split.
    + apply (step_rating_change self (call_update_elo_rating opp won now)).
    + intros Hk. rewrite elo_update_rating.
      match goal with
      | |- Rabs ?e < _ =>
          replace e with (elo_k_factor self
                          * ((if won then 1 else 0)
                             - eval (calculate_win_probability opp) self)) by lra
      end.
      rewrite Rabs_mult.
      pose proof (surprise_below_one self opp won) as Hs.
      pose proof (Rabs_pos_lt _ Hk) as Hpos.
      rewrite <- (Rmult_1_r (Rabs (elo_k_factor self))) at 2.
      apply Rmult_lt_compat_l; lra.
  - intros calls self. apply run_rating_drift.
Qed.

(** A default card (K-factor 32.0) against an opponent at 1700.0. *)
Lemma rating_drift_bounded_witness :
  Rabs (elo_rating (exec (update_elo_rating 1700 true 1%Z) sample_card)
        - elo_rating sample_card)
  < Rabs (elo_k_factor sample_card).
Proof.
  apply (proj2 (proj1 rating_drift_bounded sample_card 1700 true 1%Z)).
  cbn. lra.
Defined.

(** X9: against the same opponent, the rating after a win exceeds the
    rating after a loss by exactly the K-factor, whatever the two
    ratings. *)
Theorem win_loss_swing_is_k :
  forall (self : Card) (opp : R) (now1 now2 : datetime),
    elo_rating (exec (update_elo_rating opp true now1) self)
    - elo_rating (exec (update_elo_rating opp false now2) self)
    = elo_k_factor self.
Proof.
  intros self opp now1 now2. rewrite !elo_update_rating. lra.
Qed.

(** X10: with a positive K-factor, the stronger the opponent the better
    the outcome for the card: both the rating after a win and the rating
    after a loss are strictly increasing in the opponent's rating (an upset
    win gains more, a loss to a stronger card costs less). *)
Theorem update_increasing_in_opponent :
  forall (self : Card) (opp1 opp2 : R) (won : bool) (now1 now2 : datetime),
    0 < elo_k_factor self ->
    opp1 < opp2 ->
    elo_rating (exec (update_elo_rating opp1 won now1) self)
    < elo_rating (exec (update_elo_rating opp2 won now2) self).
Proof.
  intros self opp1 opp2 won now1 now2 Hk Hlt.
  rewrite !elo_update_rating.
  pose proof (win_probability_opponent self opp1 opp2 Hlt) as Hp.
  apply Rplus_lt_compat_l. apply Rmult_lt_compat_l; [exact Hk |].
  destruct won; lra.
Qed.

(** A default card winning against 1400.0 and against 1600.0. *)
Lemma update_increasing_in_opponent_witness :
  elo_rating (exec (update_elo_rating 1400 true 1%Z) sample_card)
  < elo_rating (exec (update_elo_rating 1600 true 1%Z) sample_card).
Proof.
  apply update_increasing_in_opponent; cbn; lra.
Defined.

Close Scope R_scope.

(** ** The scale of the win probability *)

Open Scope R_scope.

Lemma win_probability_complement (self : Card) (opp : R) :
  1 - eval (calculate_win_probability opp) self
  = Rpower 10 ((opp - elo_rating self) / 400)
    * eval (calculate_win_probability opp) self.
Proof.
  rewrite win_probability_value.
  pose proof (Rpower_positive 10 ((opp - elo_rating self) / 400)) as Hy.
  field. lra.
Qed.

(** X11: the win probability depends on the two ratings through their
    difference only, the odds [p / (1 - p)] are [10^((R - opp) / 400)],
    and so a card rated 400 points above its opponent wins with
    probability 10/11 and one rated 400 points below with 1/11. *)
Theorem win_probability_scale :
  (forall (A B : Card) (oppA oppB : R),
      oppA - elo_rating A = oppB - elo_rating B ->
      eval (calculate_win_probability oppA) A
      = eval (calculate_win_probability oppB) B)
  /\ (forall (self : Card) (opp : R),
         eval (calculate_win_probability opp) self
         / (1 - eval (calculate_win_probability opp) self)
         = Rpower 10 ((elo_rating self - opp) / 400))
  /\ (forall self : Card,
         eval (calculate_win_probability (elo_rating self - 400)) self = 10 / 11
         /\ eval (calculate_win_probability (elo_rating self + 400)) self
            = 1 / 11).
Proof.
  split; [| split].
  - intros A B oppA oppB Hdiff. rewrite !win_probability_value, Hdiff.
    reflexivity.
  - intros self opp.
    rewrite win_probability_complement.
    pose proof (win_probability_bounds self opp) as [Hp0 _].
    pose proof (Rpower_positive 10 ((opp - elo_rating self) / 400)) as Hy.
    replace ((elo_rating self - opp) / 400)
      with (- ((opp - elo_rating self) / 400)) by lra.
    rewrite Rpower_Ropp. field. lra.
  - intros self. rewrite !win_probability_value.
    replace ((elo_rating self - 400 - elo_rating self) / 400) with (- (1)) by lra.
    replace ((elo_rating self + 400 - elo_rating self) / 400) with 1 by lra.
    rewrite Rpower_Ropp, Rpower_1 by lra.
    split; field.
Qed.

(** Cards at 1500.0 and 1700.0 against opponents 100 points above. *)
Lemma win_probability_scale_witness :
  eval (calculate_win_probability 1600) sample_card
  = eval (calculate_win_probability 1800)
         (Card_init "card-b" "B" (rating_kwargs (Some 1700) None) 0%Z 0%Z).
Proof.
  apply (proj1 win_probability_scale). cbn. lra.
Defined.

(** X12: the update is self-correcting.  With a positive K-factor, after
    a win the card's expected score against any opponent is strictly
    higher than before, and after a loss strictly lower; so a second win
    in a row against the same opponent gains strictly less than the
    first. *)
Theorem update_is_self_correcting :
  forall (self : Card) (opp : R) (now : datetime),
    0 < elo_k_factor self ->
    (forall other : R,
        eval (calculate_win_probability other) self
        < eval (calculate_win_probability other)
               (exec (update_elo_rating opp true now) self)
        /\ eval (calculate_win_probability other)
                (exec (update_elo_rating opp false now) self)
           < eval (calculate_win_probability other) self)
    /\ (forall now' : datetime,
           let once := exec (update_elo_rating opp true now) self in
           let twice := exec (update_elo_rating opp true now') once in
           elo_rating twice - elo_rating once
           < elo_rating once - elo_rating self).
Proof.
  intros self opp now Hk.
  pose proof (win_probability_bounds self opp) as [Hp0 Hp1].
  assert (Hup : elo_rating self
                < elo_rating (exec (update_elo_rating opp true now) self)).
  { rewrite elo_update_rating.
    assert (0 < elo_k_factor self
                * (1 - eval (calculate_win_probability opp) self))
      by (apply Rmult_lt_0_compat; lra).
    lra. }
  assert (Hdown : elo_rating (exec (update_elo_rating opp false now) self)
                  < elo_rating self).
  { rewrite elo_update_rating.
    assert (0 < elo_k_factor self
                * eval (calculate_win_probability opp) self)
      by (apply Rmult_lt_0_compat; lra).
    lra. }
  split.
  - intros other. split; apply win_probability_own_rating; assumption.
  - intros now' once twice. subst twice.
    rewrite (elo_update_rating once).
    assert (Hk' : elo_k_factor once = elo_k_factor self) by reflexivity.
    pose proof (win_probability_own_rating self once opp Hup) as Hp.
    subst once. rewrite Hk'. rewrite (elo_update_rating self) at 3.
    assert (elo_k_factor self
            * (1 - eval (calculate_win_probability opp)
                        (exec (update_elo_rating opp true now) self))
            < elo_k_factor self
              * (1 - eval (calculate_win_probability opp) self))
      by (apply Rmult_lt_compat_l; lra).
    lra.
Qed.

(** A default card that beats an opponent at 1500.0 twice. *)
Lemma update_is_self_correcting_witness :
  let once := exec (update_elo_rating 1500 true 1%Z) sample_card in
  let twice := exec (update_elo_rating 1500 true 2%Z) once in
  elo_rating twice - elo_rating once < elo_rating once - elo_rating sample_card.
Proof.
  assert (Hk : 0 < elo_k_factor sample_card) by (cbn; lra).
  exact (proj2 (update_is_self_correcting sample_card 1500 1%Z Hk) 2%Z).
Defined.

(** X13: conservation of the total rating needs both updates to use the
    ratings from before the comparison.  With a common positive K-factor,
    if the winner A is updated first and the loser B is then updated
    against A's new rating, the two ratings add up to strictly more than
    before; if B is updated first and A then against B's new rating, to
    strictly less. *)
Theorem sequential_update_not_conserving :
  forall (A B : Card) (now1 now2 : datetime),
    elo_k_factor A = elo_k_factor B ->
    0 < elo_k_factor A ->
    (let A' := exec (update_elo_rating (elo_rating B) true now1) A in
     let B' := exec (update_elo_rating (elo_rating A') false now2) B in
     elo_rating A + elo_rating B < elo_rating A' + elo_rating B')
    /\ (let B' := exec (update_elo_rating (elo_rating A) false now1) B in
        let A' := exec (update_elo_rating (elo_rating B') true now2) A in
        elo_rating A' + elo_rating B' < elo_rating A + elo_rating B).
Proof.
  intros A B now1 now2 Hsame Hk.
  pose proof (win_probability_sum A B) as Hsum.
  pose proof (win_probability_bounds A (elo_rating B)) as [HpA0 HpA1].
  pose proof (win_probability_bounds B (elo_rating A)) as [HpB0 HpB1].
  assert (Hprod : elo_k_factor A
                  * eval (calculate_win_probability (elo_rating B)) A
                  + elo_k_factor A
                    * eval (calculate_win_probability (elo_rating A)) B
                  = elo_k_factor A)
    by (rewrite <- Rmult_plus_distr_l, Hsum; ring).
  split.
  - intros A' B'.
    assert (Hup : elo_rating A < elo_rating A').
    { subst A'. rewrite elo_update_rating.
      assert (0 < elo_k_factor A
                  * (1 - eval (calculate_win_probability (elo_rating B)) A))
        by (apply Rmult_lt_0_compat; lra).
      lra. }
    pose proof (win_probability_opponent B _ _ Hup) as Hp.
    subst B'. rewrite (elo_update_rating B). cbv iota.
    assert (HA' : elo_rating A'
                  = elo_rating A
                    + elo_k_factor A
                      * (1 - eval (calculate_win_probability (elo_rating B)) A))
      by (subst A'; apply elo_update_rating).
    rewrite <- Hsame.
    assert (elo_k_factor A
            * eval (calculate_win_probability (elo_rating A')) B
            < elo_k_factor A
              * eval (calculate_win_probability (elo_rating A)) B)
      by (apply Rmult_lt_compat_l; lra).
    lra.
  - intros B' A'.
    assert (Hdown : elo_rating B' < elo_rating B).
    { subst B'. rewrite elo_update_rating.
      assert (0 < elo_k_factor B
                  * eval (calculate_win_probability (elo_rating A)) B)
        by (apply Rmult_lt_0_compat; lra).
      lra. }
    pose proof (win_probability_opponent A _ _ Hdown) as Hp.
    subst A'. rewrite (elo_update_rating A). cbv iota.
    assert (HB' : elo_rating B'
                  = elo_rating B
                    + elo_k_factor B
                      * (0 - eval (calculate_win_probability (elo_rating A)) B))
      by (subst B'; apply elo_update_rating).
    rewrite <- Hsame in HB'.
    assert (elo_k_factor A
            * eval (calculate_win_probability (elo_rating B)) A
            < elo_k_factor A
              * eval (calculate_win_probability (elo_rating B')) A)
      by (apply Rmult_lt_compat_l; lra).
    lra.
Qed.

(** Two default cards; the winner is updated first. *)
Lemma sequential_update_not_conserving_witness :
  let A := Card_init "card-a" "A" no_kwargs 0%Z 0%Z in
  let B := Card_init "card-b" "B" no_kwargs 0%Z 0%Z in
  let A' := exec (update_elo_rating (elo_rating B) true 1%Z) A in
  let B' := exec (update_elo_rating (elo_rating A') false 2%Z) B in
  elo_rating A + elo_rating B < elo_rating A' + elo_rating B'.
Proof.
  intros A B.
  assert (Hsame : elo_k_factor A = elo_k_factor B) by reflexivity.
  assert (Hk : 0 < elo_k_factor A) by (cbn; lra).
  exact (proj1 (sequential_update_not_conserving A B 1%Z 2%Z Hsame Hk)).
Defined.

Close Scope R_scope.

(** ** The ranking score along a card's life *)

Open Scope R_scope.



(** X15: recording an interaction and updating the rating do not commute.
    In either order the counters and the rating come out the same, but the
    confidence stored by [update_elo_rating] counts the interaction only
    when it was recorded first: it is strictly smaller in the other order
    while [0 <= total_interactions < 100], and 1.0 in both orders from
    100 on. *)
Theorem swipe_and_rating_order :
  forall (self : Card) (is_like : bool) (now1 now2 : datetime)
         (opp : R) (won : bool) (now : datetime),
    let swiped_first :=
      run [call_update_interaction_counts is_like now1 now2;
           call_update_elo_rating opp won now] self in
    let rated_first :=
      run [call_update_elo_rating opp won now;
           call_update_interaction_counts is_like now1 now2] self in
    elo_rating swiped_first = elo_rating rated_first
    /\ likes_count swiped_first = likes_count rated_first
    /\ dislikes_count swiped_first = dislikes_count rated_first
    /\ total_interactions swiped_first = total_interactions rated_first
    /\ ((0 <= total_interactions self < 100)%Z ->
        confidence_score rated_first < confidence_score swiped_first)
    /\ ((100 <= total_interactions self)%Z ->
        confidence_score rated_first = 1
        /\ confidence_score swiped_first = 1).
Proof.
  intros self is_like now1 now2 opp won now swiped_first rated_first.
  assert (Hr : confidence_score rated_first
               = Rmin 1 (IZR (total_interactions self) / 100))
    by (subst rated_first; destruct is_like; reflexivity).
  assert (Hs : confidence_score swiped_first
               = Rmin 1 (IZR (total_interactions self + 1) / 100))
    by (subst swiped_first; destruct is_like; reflexivity).
  split; [subst swiped_first rated_first; destruct is_like; reflexivity |].
  split; [subst swiped_first rated_first; destruct is_like; reflexivity |].
  split; [subst swiped_first rated_first; destruct is_like; reflexivity |].
  split; [subst swiped_first rated_first; destruct is_like; reflexivity |].
  rewrite Hr, Hs, plus_IZR. split.
  - intros [_ Hlt].
    assert (Hle : (total_interactions self + 1 <= 100)%Z) by lia.
    apply IZR_lt in Hlt. apply IZR_le in Hle. rewrite plus_IZR in Hle.
    unfold Rmin.
    destruct (Rle_dec 1 (IZR (total_interactions self) / 100));
      destruct (Rle_dec 1 ((IZR (total_interactions self) + 1) / 100)); lra.
  - intros Hfull. apply IZR_le in Hfull.
    unfold Rmin.
    destruct (Rle_dec 1 (IZR (total_interactions self) / 100));
      destruct (Rle_dec 1 ((IZR (total_interactions self) + 1) / 100));
      split; lra.
Qed.

(** A default card: one like and one win against 1500.0, in both orders. *)
Lemma swipe_and_rating_order_witness :
  confidence_score
    (run [call_update_elo_rating 1500 true 3;
          call_update_interaction_counts true 1 2] sample_card)
  < confidence_score
      (run [call_update_interaction_counts true 1 2;
            call_update_elo_rating 1500 true 3] sample_card).
Proof.
  destruct (swipe_and_rating_order sample_card true 1%Z 2%Z 1500 true 3%Z)
    as (_ & _ & _ & _ & Hlt & _).
  apply Hlt. cbn. lia.
Defined.

Close Scope R_scope.

(** ** The balance of the counters *)

Lemma count_swipes_split (calls : list Call) :
  count_calls is_like_swipe calls + count_calls is_dislike_swipe calls
  = count_calls is_swipe calls.
Proof.
  induction calls as [| c rest IH]; cbn [count_calls]; [reflexivity |].
  destruct c as [is_like now1 now2 | opp | opp won now |];
    [destruct is_like | | |]; cbn [is_like_swipe is_dislike_swipe is_swipe negb];
    lia.
Qed.

(** X16: the imbalance [likes_count + dislikes_count - total_interactions]
    is the same after every sequence of calls as before it; so a card
    constructed with counters that do not add up is never brought back
    into balance by the methods. *)
Theorem counter_imbalance_constant :
  (forall (calls : list Call) (self : Card),
      likes_count (run calls self) + dislikes_count (run calls self)
      - total_interactions (run calls self)
      = likes_count self + dislikes_count self - total_interactions self)
  /\ (forall (calls : list Call) (self : Card),
         likes_count self + dislikes_count self <> total_interactions self ->
         likes_count (run calls self) + dislikes_count (run calls self)
         <> total_interactions (run calls self)).
Proof.
  assert (Hconst : forall (calls : list Call) (self : Card),
             likes_count (run calls self) + dislikes_count (run calls self)
             - total_interactions (run calls self)
             = likes_count self + dislikes_count self - total_interactions self).
  { intros calls self.
    destruct (run_counters calls self) as (Ht & Hl & Hd).
    pose proof (count_swipes_split calls). lia. }
  split; [exact Hconst |].
  intros calls self Hoff. specialize (Hconst calls self). lia.
Qed.

(** A card constructed with [likes_count=3] and nothing else. *)
Lemma counter_imbalance_constant_witness :
  let self := Card_init "card-1" "sample"
                (mkKwargs None None (Some 3) None None None None None None) 0 0 in
  let calls := [call_update_interaction_counts false 1 2;
                call_update_elo_rating 1500 true 3] in
  likes_count (run calls self) + dislikes_count (run calls self)
  <> total_interactions (run calls self).
Proof.
  intros self calls.
  apply (proj2 counter_imbalance_constant calls self).
  cbn. lia.
Defined.
